(** * ICO container encoder: [createIcoFromPng] of src/utils/icoUtils.ts

    The encoder allocates an [ArrayBuffer] of [22 + pngBuffer.byteLength]
    bytes, fills a 6-byte header and a 16-byte directory entry through a
    [DataView], copies the PNG bytes behind them through two [Uint8Array]
    views and wraps the buffer in a [Blob].

    The embedding keeps that shape.  Array buffers live in a store
    (a finite map from buffer identities to byte lists), views are records
    that point into the store, and every built-in the function calls is a
    computation in a small state-and-exception monad, so that aliasing,
    allocation and the [RangeError]/[TypeError] paths of the built-ins are
    all visible to the theorems.

    Numbers: the [width] and [height] arguments and every index are
    integer-valued, so a JavaScript number is a [Z] here and [+] on lengths
    is integer addition.  Allocation is taken to succeed whatever the
    size. *)

From Stdlib Require Import ZArith Lia.
From Stdlib Require Import Strings.Byte Strings.Ascii.
From stdpp Require Import base list gmap fin_maps strings.

Local Open Scope Z_scope.

(** ** Bytes and the integer conversions of typed storage *)

Abbreviation byte := Byte.byte.

(** [ToUint8]-style storage of an integer: its residue modulo 256. *)
Definition byte_of_Z (z : Z) : byte :=
  default Byte.x00 (Byte.of_N (Z.to_N (z mod 256))).

Definition byte_to_Z (b : byte) : Z := Z.of_N (Byte.to_N b).

(** The [n] low-order bytes of [z], least significant first. *)
Fixpoint le_bytes (n : nat) (z : Z) : list byte :=
  match n with
  | O => []
  | S n' => byte_of_Z z :: le_bytes n' (z / 256)
  end.

(** [NumericToRawBytes] for the unsigned integer element types: the value
    is reduced modulo [2 ^ (8 * size)] and laid out in the requested byte
    order. *)
Definition NumericToRawBytes (size : nat) (value : Z) (isLittleEndian : bool)
  : list byte :=
  let intValue := value mod 2 ^ (8 * Z.of_nat size) in
  let rawBytes := le_bytes size intValue in
  if isLittleEndian then rawBytes else reverse rawBytes.

Fixpoint le_value (bs : list byte) : Z :=
  match bs with
  | [] => 0
  | b :: bs' => byte_to_Z b + 256 * le_value bs'
  end.

(** [RawBytesToNumeric] for the unsigned integer element types. *)
Definition RawBytesToNumeric (rawBytes : list byte) (isLittleEndian : bool) : Z :=
  le_value (if isLittleEndian then rawBytes else reverse rawBytes).

(** ** The store of array buffers *)

(** An [ArrayBuffer] value is the identity of a buffer.  A store binds the
    identities of the live buffers to their contents; an identity that the
    store does not bind stands for a buffer that is not live (detached). *)
Abbreviation ArrayBuffer := nat.
Abbreviation heap := (gmap nat (list byte)).

Inductive JSError : Set := RangeError | TypeError.

Inductive Completion (A : Type) : Type :=
| Normal (a : A) (σ : heap)
| Throw (e : JSError).
Arguments Normal {A} a σ.
Arguments Throw {A} e.

(** Computations that read and update the store and may throw. *)
Definition JS (A : Type) : Type := heap → Completion A.

Definition bind {A B} (m : JS A) (k : A → JS B) : JS B :=
  fun σ =>
    match m σ with
    | Normal a σ' => k a σ'
    | Throw e => Throw e
    end.

Notation "'let!' x ':=' m 'in' k" := (bind m (fun x => k))
  (at level 10, x name, m at level 100, k at level 200,
   format "'[v' 'let!'  x  ':='  m  'in' '/' k ']'").
Notation "m ';;' k" := (bind m (fun _ => k))
  (at level 100, k at level 200, right associativity,
   format "'[v' m  ';;' '/' k ']'").

(** ** Views and blobs *)

Record DataView : Set := mkDataView
  { dv_buffer : ArrayBuffer; dv_byteOffset : nat; dv_byteLength : nat }.

Record Uint8Array : Set := mkUint8Array
  { ta_buffer : ArrayBuffer; ta_byteOffset : nat; ta_length : nat }.

Record Blob : Set := mkBlob
  { blob_bytes : list byte; blob_type : string }.

(** ** The built-ins the encoder calls *)

(** [buffer.byteLength]; a buffer that is not live reports 0. *)
Definition byteLength (buffer : ArrayBuffer) : JS Z :=
  fun σ =>
    match σ !! buffer with
    | Some data => Normal (Z.of_nat (length data)) σ
    | None => Normal 0 σ
    end.

(** [new ArrayBuffer(length)]: a negative length is a [RangeError];
    otherwise a buffer of that many zero bytes under an identity that the
    store did not bind.  The [RangeError] of a length above [2 ^ 53 - 1]
    and of an allocation the engine cannot serve is left out: the store
    has room for a buffer of any length. *)
Definition new_ArrayBuffer (length : Z) : JS ArrayBuffer :=
  fun σ =>
    if length <? 0 then Throw RangeError
    else
      let buffer := fresh (dom σ) in
      Normal buffer (<[buffer := replicate (Z.to_nat length) Byte.x00]> σ).

(** [new DataView(buffer)]: the view spans the whole buffer. *)
Definition new_DataView (buffer : ArrayBuffer) : JS DataView :=
  fun σ =>
    match σ !! buffer with
    | Some data => Normal (mkDataView buffer 0 (length data)) σ
    | None => Throw TypeError
    end.

(** [SetViewValue(view, requestIndex, isLittleEndian, type, value)] for an
    unsigned integer type of [size] bytes. *)
Definition SetViewValue (view : DataView) (requestIndex : Z)
    (isLittleEndian : bool) (size : nat) (value : Z) : JS unit :=
  fun σ =>
    if requestIndex <? 0 then Throw RangeError
    else
      match σ !! dv_buffer view with
      | None => Throw TypeError
      | Some data =>
          if Z.of_nat (dv_byteLength view) <? requestIndex + Z.of_nat size
          then Throw RangeError
          else
            let bufferIndex := (Z.to_nat requestIndex + dv_byteOffset view)%nat in
            let rawBytes := NumericToRawBytes size value isLittleEndian in
            Normal tt (<[dv_buffer view := list_inserts bufferIndex rawBytes data]> σ)
      end.

Definition setUint8 (view : DataView) (byteOffset value : Z) : JS unit :=
  SetViewValue view byteOffset true 1 value.

Definition setUint16 (view : DataView) (byteOffset value : Z)
    (littleEndian : bool) : JS unit :=
  SetViewValue view byteOffset littleEndian 2 value.

Definition setUint32 (view : DataView) (byteOffset value : Z)
    (littleEndian : bool) : JS unit :=
  SetViewValue view byteOffset littleEndian 4 value.

(** [new Uint8Array(buffer)]: one element per byte of the buffer. *)
Definition new_Uint8Array (buffer : ArrayBuffer) : JS Uint8Array :=
  fun σ =>
    match σ !! buffer with
    | Some data => Normal (mkUint8Array buffer 0 (length data)) σ
    | None => Throw TypeError
    end.

(** [target.set(source, targetOffset)] between two [Uint8Array]s: the bytes
    the source views are read first and then written over the target's
    elements from [targetOffset] on. *)
Definition Uint8Array_set (target source : Uint8Array) (targetOffset : Z)
  : JS unit :=
  fun σ =>
    if targetOffset <? 0 then Throw RangeError
    else
      match σ !! ta_buffer target, σ !! ta_buffer source with
      | Some targetData, Some srcData =>
          if Z.of_nat (ta_length target) <? Z.of_nat (ta_length source) + targetOffset
          then Throw RangeError
          else
            let srcBytes := take (ta_length source) (drop (ta_byteOffset source) srcData) in
            let targetByteIndex := (Z.to_nat targetOffset + ta_byteOffset target)%nat in
            Normal tt (<[ta_buffer target := list_inserts targetByteIndex srcBytes targetData]> σ)
      | _, _ => Throw TypeError
      end.

(** [new Blob(parts, { type })] with array buffers as parts: the blob holds
    a copy of their bytes, one part after the other.  The type given by the
    encoder is lower-case printable ASCII, which the constructor keeps. *)
Definition new_Blob (blobParts : list ArrayBuffer) (type : string) : JS Blob :=
  fun σ =>
    Normal (mkBlob (concat (map (fun part => default [] (σ !! part)) blobParts)) type) σ.

(** ** The encoder *)

Definition createIcoFromPng (pngBuffer : ArrayBuffer) (width height : Z) : JS Blob :=
  let! pngByteLength := byteLength pngBuffer in
  let icoBufferSize := 22 + pngByteLength in
  let! buffer := new_ArrayBuffer icoBufferSize in
  let! view := new_DataView buffer in
  setUint16 view 0 0 true ;;
  setUint16 view 2 1 true ;;
  setUint16 view 4 1 true ;;
  setUint8 view 6 (if 256 <=? width then 0 else width) ;;
  setUint8 view 7 (if 256 <=? height then 0 else height) ;;
  setUint8 view 8 0 ;;
  setUint8 view 9 0 ;;
  setUint16 view 10 1 true ;;
  setUint16 view 12 32 true ;;
  let! pngByteLength' := byteLength pngBuffer in
  setUint32 view 14 pngByteLength' true ;;
  setUint32 view 18 22 true ;;
  let! pngBytes := new_Uint8Array pngBuffer in
  let! icoBytes := new_Uint8Array buffer in
  Uint8Array_set icoBytes pngBytes 22 ;;
  new_Blob [buffer] "image/x-icon".

(** ** What a reader of the result sees *)

(** What a caller holds after the call: the bytes of the returned blob, or
    nothing when the call threw. *)
Definition produced (c : Completion Blob) : option (list byte) :=
  match c with
  | Normal blob _ => Some (blob_bytes blob)
  | Throw _ => None
  end.

(** The unsigned little-endian field of [size] bytes found at [offset] in a
    byte sequence: how a reader of the produced file sees a field. *)
Definition field_le (bytes : list byte) (offset size : nat) : Z :=
  RawBytesToNumeric (take size (drop offset bytes)) true.

(** The pair of dimension bytes of the directory entry, as numbers. *)
Definition directory_size (bytes : list byte) : option (Z * Z) :=
  bw ← bytes !! 6%nat; bh ← bytes !! 7%nat; Some (byte_to_Z bw, byte_to_Z bh).

(** ** The bytes the encoder assembles *)

(** The 22 bytes in front of the payload, field by field in file order, as
    the writes of [createIcoFromPng] leave them. *)
Definition ico_prefix (pngByteLength width height : Z) : list byte :=
  NumericToRawBytes 2 0 true ++ NumericToRawBytes 2 1 true
  ++ NumericToRawBytes 2 1 true
  ++ NumericToRawBytes 1 (if 256 <=? width then 0 else width) true
  ++ NumericToRawBytes 1 (if 256 <=? height then 0 else height) true
  ++ NumericToRawBytes 1 0 true ++ NumericToRawBytes 1 0 true
  ++ NumericToRawBytes 2 1 true ++ NumericToRawBytes 2 32 true
  ++ NumericToRawBytes 4 pngByteLength true ++ NumericToRawBytes 4 22 true.

(** The directory byte stored for a dimension. *)
Definition dimension_byte (d : Z) : byte := byte_of_Z (if 256 <=? d then 0 else d).

(** Everything the file holds: the prefix, then the payload. *)
Definition ico_image (png : list byte) (width height : Z) : list byte :=
  ico_prefix (Z.of_nat (length png)) width height ++ png.

(** ** Concrete stores *)

Definition demo_png : list byte :=
  [Byte.x89; Byte.x50; Byte.x4e; Byte.x47; Byte.x00; Byte.x00; Byte.x00;
   Byte.x00; Byte.x00; Byte.x00].

Definition demo_heap : gmap nat (list byte) := {[ 0%nat := demo_png ]}.

(** A payload of 4 GiB of zero bytes, and a store that holds it. *)
Definition big_png : list byte := replicate (Z.to_nat (2 ^ 32)) Byte.x00.
Definition big_heap : gmap nat (list byte) := {[ 0%nat := big_png ]}.

(** ** The page around the encoder: [ImageProcessor]

    The component keeps five pieces of state and changes them in its event
    handlers and in the timer callback of [processFile].  Each handler is
    a function on the record of that state; what the handlers do to the
    document (canvas, links, object URLs) is outside the record.  The text
    of a number input reaches the state only through [parseInt], whose
    result, an integer or [NaN], is what the change events carry here; an
    object URL is an opaque string handed to the timer callback. *)

(** Modelled from the spec: the enumeration [ProcessState] of the module
    [types], which the component imports; these are the four members the
    component uses. *)
Inductive ProcessState : Set := Idle | Processing | Ready | Error.

Record File : Set := mkFile { file_name : string; file_type : string }.

Record Size : Set := mkSize { width : Z; height : Z }.

Record ImageProcessor : Set := mkImageProcessor
  { processState : ProcessState;
    originalFile : option File;
    processedImageUrl : option string;
    size : Size;
    error : option string }.

Definition commonIcoSizes : list Z := [16; 24; 32; 48; 64; 128; 256].

(** The state of the first render. *)
Definition initialState : ImageProcessor :=
  mkImageProcessor Idle None None (mkSize 32 32) None.

(** [x || d] on the result of [parseInt]: [NaN] ([None]) and 0 are falsy. *)
Definition number_or (x : option Z) (d : Z) : Z :=
  match x with
  | None => d
  | Some n => if n =? 0 then d else n
  end.

(** [Math.max(1, parseInt(e.target.value) || 1)]. *)
Definition clampDimension (parsed : option Z) : Z := Z.max 1 (number_or parsed 1).

Definition processFile (file : File) (c : ImageProcessor) : ImageProcessor :=
  if negb (String.prefix "image/" (file_type file)) then
    mkImageProcessor Error (originalFile c) (processedImageUrl c) (size c)
      (Some "Invalid file type. Please upload an image.")
  else
    mkImageProcessor Processing (Some file) (processedImageUrl c) (size c) None.

(** The callback [processFile] hands to [setTimeout]; [url] is what
    [URL.createObjectURL(file)] returned. *)
Definition processFile_timeout (url : string) (c : ImageProcessor) : ImageProcessor :=
  mkImageProcessor Ready (originalFile c) (Some url) (size c) (error c).

(** [handleFileChange] and [handleDrop] take the first file, if any. *)
Definition handleFileChange (files : list File) (c : ImageProcessor) : ImageProcessor :=
  match files with
  | file :: _ => processFile file c
  | [] => c
  end.

Definition handleDrop (files : list File) (c : ImageProcessor) : ImageProcessor :=
  match files with
  | file :: _ => processFile file c
  | [] => c
  end.

Definition handleReset (c : ImageProcessor) : ImageProcessor :=
  mkImageProcessor Idle None None (mkSize 32 32) None.

(** The catch block of [handleDownload]. *)
Definition handleDownload_catch (c : ImageProcessor) : ImageProcessor :=
  mkImageProcessor Error (originalFile c) (processedImageUrl c) (size c)
    (Some "Failed to generate ICO file. Please try again.").

Definition onWidthChange (parsed : option Z) (c : ImageProcessor) : ImageProcessor :=
  mkImageProcessor (processState c) (originalFile c) (processedImageUrl c)
    (mkSize (clampDimension parsed) (height (size c))) (error c).

Definition onHeightChange (parsed : option Z) (c : ImageProcessor) : ImageProcessor :=
  mkImageProcessor (processState c) (originalFile c) (processedImageUrl c)
    (mkSize (width (size c)) (clampDimension parsed)) (error c).

(** The click on the [i]-th preset button; there is no button past the
    end of [commonIcoSizes]. *)
Definition onPresetClick (i : nat) (c : ImageProcessor) : ImageProcessor :=
  match commonIcoSizes !! i with
  | Some s =>
      mkImageProcessor (processState c) (originalFile c) (processedImageUrl c)
        (mkSize s s) (error c)
  | None => c
  end.

(** What can happen to the component. *)
Inductive Event : Set :=
| FileChange (files : list File)
| Drop (files : list File)
| Timeout (url : string)
| Reset
| DownloadFailed
| WidthChange (parsed : option Z)
| HeightChange (parsed : option Z)
| PresetClick (i : nat).

Definition handle (c : ImageProcessor) (e : Event) : ImageProcessor :=
  match e with
  | FileChange files => handleFileChange files c
  | Drop files => handleDrop files c
  | Timeout url => processFile_timeout url c
  | Reset => handleReset c
  | DownloadFailed => handleDownload_catch c
  | WidthChange parsed => onWidthChange parsed c
  | HeightChange parsed => onHeightChange parsed c
  | PresetClick i => onPresetClick i c
  end.

(** The state after a sequence of events, in any order: more sequences
    than the page lets a user produce. *)
Definition run (events : list Event) : ImageProcessor :=
  foldl handle initialState events.

(** Step 3 of [handleDownload]: the encoder is called with the size of the
    state. *)
Definition handleDownload_ico (c : ImageProcessor) (pngBuffer : ArrayBuffer) : JS Blob :=
  createIcoFromPng pngBuffer (width (size c)) (height (size c)).

(** [s.split('.')]: never empty, one more piece than there are dots.  The
    split looks at a string only to find the dots, so the characters of a
    name can be taken one byte at a time. *)
Fixpoint split_dot (s : string) : list string :=
  match s with
  | EmptyString => [EmptyString]
  | String c s' =>
      if Ascii.eqb c "."%char then EmptyString :: split_dot s'
      else
        match split_dot s' with
        | piece :: pieces => String c piece :: pieces
        | [] => [String c EmptyString]
        end
  end.

(** [pieces.slice(0, -1)]: all but the last. *)
Definition slice_0_minus1 (pieces : list string) : list string :=
  take (length pieces - 1) pieces.

(** [pieces.join('.')]. *)
Fixpoint join_dot (pieces : list string) : string :=
  match pieces with
  | [] => EmptyString
  | [piece] => piece
  | piece :: rest => piece +:+ "." +:+ join_dot rest
  end.

(** [originalFile?.name.split('.').slice(0, -1).join('.') || 'icon']. *)
Definition originalName (originalFile : option File) : string :=
  match originalFile with
  | None => "icon"
  | Some file =>
      match join_dot (slice_0_minus1 (split_dot (file_name file))) with
      | EmptyString => "icon"
      | stem => stem
      end
  end.

(** How a reader takes a dimension byte of a directory entry: the
    encoder's own note on the field, [0 means 256]. *)
Definition directory_dimension (b : Z) : Z := if b =? 0 then 256 else b.

(** A string without a dot. *)
Fixpoint dot_free (s : string) : bool :=
  match s with
  | EmptyString => true
  | String c s' => negb (Ascii.eqb c "."%char) && dot_free s'
  end.

Definition demo_file : File := mkFile "logo.final.png" "image/png".

(** ** Facts about the byte conversions *)

Section Bytes.

Lemma byte_to_Z_of_Z (z : Z) : byte_to_Z (byte_of_Z z) = z mod 256.
Proof.
  unfold byte_to_Z, byte_of_Z.
  assert (Hr : 0 <= z mod 256 < 256) by (apply Z.mod_pos_bound; lia).
  destruct (Byte.of_N (Z.to_N (z mod 256))) as [b|] eqn:E; simpl.
  - apply Byte.to_of_N in E. rewrite E. apply Z2N.id. lia.
  - apply Byte.of_N_None_iff in E. lia.
Qed.

Lemma byte_of_Z_mod (z : Z) : byte_of_Z (z mod 256) = byte_of_Z z.
Proof. unfold byte_of_Z. by rewrite Z.mod_mod. Qed.

Lemma length_le_bytes (n : nat) (z : Z) : length (le_bytes n z) = n.
Proof. revert z. induction n as [|n IH]; intros z; simpl; [done|]. by rewrite IH. Qed.

Lemma length_NumericToRawBytes (size : nat) (value : Z) (little : bool) :
  length (NumericToRawBytes size value little) = size.
Proof.
  unfold NumericToRawBytes. destruct little.
  - apply length_le_bytes.
  - rewrite length_reverse. apply length_le_bytes.
Qed.

Lemma le_value_le_bytes (n : nat) (z : Z) :
  le_value (le_bytes n z) = z mod 256 ^ Z.of_nat n.
Proof.
  revert z. induction n as [|n IH]; intros z.
  - simpl. by rewrite Z.mod_1_r.
  - cbn [le_bytes le_value]. rewrite IH, byte_to_Z_of_Z.
    rewrite Nat2Z.inj_succ, Z.pow_succ_r by lia.
    rewrite Z.rem_mul_r by lia. reflexivity.
Qed.

(** Writing a number and reading the bytes back gives its residue. *)
Lemma RawBytesToNumeric_NumericToRawBytes (size : nat) (value : Z) (little : bool) :
  RawBytesToNumeric (NumericToRawBytes size value little) little
  = value mod 2 ^ (8 * Z.of_nat size).
Proof.
  unfold RawBytesToNumeric, NumericToRawBytes.
  assert (E : 256 ^ Z.of_nat size = 2 ^ (8 * Z.of_nat size)).
  { change 256 with (2 ^ 8). rewrite <- Z.pow_mul_r by lia. reflexivity. }
  destruct little.
  - rewrite le_value_le_bytes, E. apply Z.mod_mod. lia.
  - rewrite reverse_involutive, le_value_le_bytes, E. apply Z.mod_mod. lia.
Qed.

End Bytes.

(** ** Running the built-ins

    Each lemma gives the normal completion of one built-in on a store in
    which the buffer it touches is live and the access is in bounds. *)

Section Run.

Context (σ : gmap nat (list byte)).

Lemma bind_Normal {A B} (m : JS A) (k : A → JS B) (τ τ' : gmap nat (list byte)) (a : A) :
  m τ = Normal a τ' → bind m k τ = k a τ'.
Proof. unfold bind. by intros ->. Qed.

Lemma byteLength_live (buffer : nat) (data : list byte) :
  σ !! buffer = Some data →
  byteLength buffer σ = Normal (Z.of_nat (length data)) σ.
Proof. unfold byteLength. by intros ->. Qed.

Lemma fresh_unbound : σ !! fresh (dom σ) = None.
Proof. apply not_elem_of_dom, is_fresh. Qed.

Lemma new_ArrayBuffer_run (n : Z) :
  0 <= n →
  new_ArrayBuffer n σ
  = Normal (fresh (dom σ)) (<[fresh (dom σ) := replicate (Z.to_nat n) Byte.x00]> σ).
Proof.
  intros Hn. unfold new_ArrayBuffer.
  destruct (Z.ltb_spec n 0) as [?|_]; [lia|done].
Qed.

Lemma new_DataView_run (b : nat) (data : list byte) :
  new_DataView b (<[b := data]> σ)
  = Normal (mkDataView b 0 (length data)) (<[b := data]> σ).
Proof. unfold new_DataView. by rewrite lookup_insert_eq. Qed.

Lemma new_Uint8Array_live (b : nat) (data : list byte) :
  σ !! b = Some data →
  new_Uint8Array b σ = Normal (mkUint8Array b 0 (length data)) σ.
Proof. unfold new_Uint8Array. by intros ->. Qed.

(** A write through a view that starts at the buffer's first byte,
    inside the view's bounds. *)
Lemma SetViewValue_run (b : nat) (data : list byte) (n : nat) (off : Z)
    (little : bool) (size : nat) (value : Z) :
  0 <= off → off + Z.of_nat size <= Z.of_nat n →
  SetViewValue (mkDataView b 0 n) off little size value (<[b := data]> σ)
  = Normal tt
      (<[b := list_inserts (Z.to_nat off) (NumericToRawBytes size value little) data]> σ).
Proof.
  intros Hlo Hhi. unfold SetViewValue. cbn [dv_buffer dv_byteLength dv_byteOffset].
  destruct (Z.ltb_spec off 0) as [?|_]; [lia|].
  rewrite lookup_insert_eq.
  destruct (Z.ltb_spec (Z.of_nat n) (off + Z.of_nat size)) as [?|_]; [lia|].
  by rewrite Nat.add_0_r, insert_insert_eq.
Qed.

(** Copying a whole live buffer into another one, inside its bounds. *)
Lemma Uint8Array_set_run (b src : nat) (data srcData : list byte) (n : nat) (off : Z) :
  b ≠ src → σ !! src = Some srcData →
  0 <= off → Z.of_nat (length srcData) + off <= Z.of_nat n →
  Uint8Array_set (mkUint8Array b 0 n)
                 (mkUint8Array src 0 (length srcData)) off (<[b := data]> σ)
  = Normal tt (<[b := list_inserts (Z.to_nat off) srcData data]> σ).
Proof.
  intros Hne Hsrc Hlo Hhi. unfold Uint8Array_set.
  cbn [ta_buffer ta_byteOffset ta_length].
  destruct (Z.ltb_spec off 0) as [?|_]; [lia|].
  rewrite lookup_insert_eq, lookup_insert_ne, Hsrc by done.
  destruct (Z.ltb_spec (Z.of_nat n) (Z.of_nat (length srcData) + off))
    as [?|_]; [lia|].
  by rewrite drop_0, firstn_all, Nat.add_0_r, insert_insert_eq.
Qed.

Lemma new_Blob_run (b : nat) (data : list byte) (type : string) :
  new_Blob [b] type (<[b := data]> σ) = Normal (mkBlob data type) (<[b := data]> σ).
Proof.
  unfold new_Blob. cbn [map concat]. by rewrite lookup_insert_eq, app_nil_r.
Qed.

End Run.

Lemma length_ico_prefix (n w h : Z) : length (ico_prefix n w h) = 22%nat.
Proof.
  unfold ico_prefix. rewrite !length_app, !length_NumericToRawBytes. reflexivity.
Qed.

Lemma NumericToRawBytes_le_1 (v : Z) : ∃ a, NumericToRawBytes 1 v true = [a].
Proof. by eexists. Qed.

Lemma NumericToRawBytes_le_2 (v : Z) : ∃ a b, NumericToRawBytes 2 v true = [a; b].
Proof. by do 2 eexists. Qed.

Lemma NumericToRawBytes_le_4 (v : Z) :
  ∃ a b c d, NumericToRawBytes 4 v true = [a; b; c; d].
Proof. by do 4 eexists. Qed.

(** The sequence of header writes turns 22 zero bytes followed by any
    [rest] into the prefix followed by [rest]. *)
Lemma header_writes (n w h : Z) (rest : list byte) :
  list_inserts 18 (NumericToRawBytes 4 22 true)
   (list_inserts 14 (NumericToRawBytes 4 n true)
    (list_inserts 12 (NumericToRawBytes 2 32 true)
     (list_inserts 10 (NumericToRawBytes 2 1 true)
      (list_inserts 9 (NumericToRawBytes 1 0 true)
       (list_inserts 8 (NumericToRawBytes 1 0 true)
        (list_inserts 7 (NumericToRawBytes 1 (if 256 <=? h then 0 else h) true)
         (list_inserts 6 (NumericToRawBytes 1 (if 256 <=? w then 0 else w) true)
          (list_inserts 4 (NumericToRawBytes 2 1 true)
           (list_inserts 2 (NumericToRawBytes 2 1 true)
            (list_inserts 0 (NumericToRawBytes 2 0 true)
              (replicate 22 Byte.x00 ++ rest)))))))))))
  = ico_prefix n w h ++ rest.
Proof.
  unfold ico_prefix.
  destruct (NumericToRawBytes_le_1 (if 256 <=? w then 0 else w)) as (w0 & ->).
  destruct (NumericToRawBytes_le_1 (if 256 <=? h then 0 else h)) as (h0 & ->).
  destruct (NumericToRawBytes_le_4 n) as (n0 & n1 & n2 & n3 & ->).
  destruct (NumericToRawBytes_le_1 0) as (z0 & ->).
  destruct (NumericToRawBytes_le_2 0) as (r0 & r1 & ->).
  destruct (NumericToRawBytes_le_2 1) as (o0 & o1 & ->).
  destruct (NumericToRawBytes_le_2 32) as (b0 & b1 & ->).
  destruct (NumericToRawBytes_le_4 22) as (q0 & q1 & q2 & q3 & ->).
  reflexivity.
Qed.

Lemma payload_write (pre png : list byte) :
  length pre = 22%nat →
  list_inserts 22 png (pre ++ replicate (length png) Byte.x00) = pre ++ png.
Proof.
  intros Hpre.
  rewrite <- (app_nil_r (replicate _ _)).
  change 22%nat with (22 + 0)%nat. rewrite <- Hpre.
  rewrite list_inserts_app_r, list_inserts_0_r by (by rewrite length_replicate).
  by rewrite app_nil_r.
Qed.

(** The whole call, on any store in which [pngBuffer] is live: it returns
    normally, the blob holds [ico_image], and the only change to the store
    is the binding of the buffer the call allocated. *)
Lemma createIcoFromPng_run (σ : gmap nat (list byte)) (pngBuffer : nat)
    (png : list byte) (width height : Z) :
  σ !! pngBuffer = Some png →
  createIcoFromPng pngBuffer width height σ
  = Normal (mkBlob (ico_image png width height) "image/x-icon")
           (<[fresh (dom σ) := ico_image png width height]> σ).
Proof.
  intros Hpng. unfold createIcoFromPng.
  pose proof (fresh_unbound σ) as Hfresh.
  assert (Hne : fresh (dom σ) ≠ pngBuffer) by congruence.
  set (b := fresh (dom σ)) in *.
  erewrite bind_Normal by (by apply byteLength_live).
  erewrite bind_Normal by (apply new_ArrayBuffer_run; lia).
  fold b.
  replace (Z.to_nat (22 + Z.of_nat (length png))) with (22 + length png)%nat by lia.
  erewrite bind_Normal by apply new_DataView_run.
  rewrite length_replicate.
  unfold setUint8, setUint16, setUint32.
  do 9 (erewrite bind_Normal by (apply SetViewValue_run; lia)).
  erewrite bind_Normal
    by (apply byteLength_live; rewrite lookup_insert_ne by done; exact Hpng).
  do 2 (erewrite bind_Normal by (apply SetViewValue_run; lia)).
  erewrite bind_Normal
    by (apply new_Uint8Array_live; rewrite lookup_insert_ne by done; exact Hpng).
  erewrite bind_Normal by (apply new_Uint8Array_live; apply lookup_insert_eq).
  erewrite bind_Normal
    by (apply Uint8Array_set_run;
        [done | exact Hpng | lia | rewrite !length_inserts, length_replicate; lia]).
  rewrite new_Blob_run.
  change (Z.to_nat 0) with 0%nat. change (Z.to_nat 2) with 2%nat.
  change (Z.to_nat 4) with 4%nat. change (Z.to_nat 6) with 6%nat.
  change (Z.to_nat 7) with 7%nat. change (Z.to_nat 8) with 8%nat.
  change (Z.to_nat 9) with 9%nat. change (Z.to_nat 10) with 10%nat.
  change (Z.to_nat 12) with 12%nat. change (Z.to_nat 14) with 14%nat.
  change (Z.to_nat 18) with 18%nat. change (Z.to_nat 22) with 22%nat.
  rewrite replicate_add, header_writes, payload_write by apply length_ico_prefix.
  reflexivity.
Qed.

Lemma createIcoFromPng_produced (σ : gmap nat (list byte)) (pngBuffer : nat)
    (png : list byte) (width height : Z) :
  σ !! pngBuffer = Some png →
  produced (createIcoFromPng pngBuffer width height σ) = Some (ico_image png width height).
Proof. intros Hpng. by rewrite (createIcoFromPng_run _ _ _ _ _ Hpng). Qed.

(** A 10-byte payload at 32 x 32: 32 bytes come out, the payload last. *)
Example createIcoFromPng_demo :
  produced (createIcoFromPng 0%nat 32 32 demo_heap)
  = Some ([Byte.x00; Byte.x00; Byte.x01; Byte.x00; Byte.x01; Byte.x00;
           Byte.x20; Byte.x20; Byte.x00; Byte.x00; Byte.x01; Byte.x00;
           Byte.x20; Byte.x00; Byte.x0a; Byte.x00; Byte.x00; Byte.x00;
           Byte.x16; Byte.x00; Byte.x00; Byte.x00] ++ demo_png).
Proof. vm_compute. reflexivity. Qed.

(** ** The layout of the prefix *)

Lemma NumericToRawBytes_1 (v : Z) : NumericToRawBytes 1 v true = [byte_of_Z v].
Proof.
  unfold NumericToRawBytes. cbn [le_bytes].
  change (2 ^ (8 * Z.of_nat 1)) with 256. by rewrite byte_of_Z_mod.
Qed.

Lemma ico_prefix_layout (n w h : Z) :
  ∃ n0 n1 n2 n3,
    NumericToRawBytes 4 n true = [n0; n1; n2; n3] ∧
    ico_prefix n w h
    = [Byte.x00; Byte.x00; Byte.x01; Byte.x00; Byte.x01; Byte.x00;
       dimension_byte w; dimension_byte h; Byte.x00; Byte.x00;
       Byte.x01; Byte.x00; Byte.x20; Byte.x00;
       n0; n1; n2; n3; Byte.x16; Byte.x00; Byte.x00; Byte.x00].
Proof.
  unfold ico_prefix, dimension_byte. rewrite !NumericToRawBytes_1.
  destruct (NumericToRawBytes_le_4 n) as (n0 & n1 & n2 & n3 & E). rewrite E.
  exists n0, n1, n2, n3. split; reflexivity.
Qed.

Lemma dimension_byte_small (d : Z) : d < 256 → byte_to_Z (dimension_byte d) = d mod 256.
Proof.
  intros Hd. unfold dimension_byte.
  destruct (Z.leb_spec 256 d) as [?|_]; [lia|]. apply byte_to_Z_of_Z.
Qed.

Lemma dimension_byte_large (d : Z) : 256 <= d → byte_to_Z (dimension_byte d) = 0.
Proof.
  intros Hd. unfold dimension_byte.
  destruct (Z.leb_spec 256 d) as [_|?]; [reflexivity|lia].
Qed.

Lemma ico_image_layout (png : list byte) (w h : Z) :
  ∃ n0 n1 n2 n3,
    NumericToRawBytes 4 (Z.of_nat (length png)) true = [n0; n1; n2; n3] ∧
    ico_image png w h
    = [Byte.x00; Byte.x00; Byte.x01; Byte.x00; Byte.x01; Byte.x00;
       dimension_byte w; dimension_byte h; Byte.x00; Byte.x00;
       Byte.x01; Byte.x00; Byte.x20; Byte.x00;
       n0; n1; n2; n3; Byte.x16; Byte.x00; Byte.x00; Byte.x00] ++ png.
Proof.
  unfold ico_image.
  destruct (ico_prefix_layout (Z.of_nat (length png)) w h) as (n0 & n1 & n2 & n3 & E & ->).
  by exists n0, n1, n2, n3.
Qed.

(** Start of a proof about the produced bytes: run the call and expose the
    layout of what it produced. *)
Ltac run_encoder Hpng png w h :=
  rewrite (createIcoFromPng_produced _ _ _ w h Hpng);
  let n0 := fresh "n0" in let n1 := fresh "n1" in
  let n2 := fresh "n2" in let n3 := fresh "n3" in
  let Hsize := fresh "Hsize" in let Hlayout := fresh "Hlayout" in
  destruct (ico_image_layout png w h) as (n0 & n1 & n2 & n3 & Hsize & Hlayout).

(** C1. For every live input buffer, of any length and content, and all
    integers [width] and [height], the call produces exactly
    [22 + length png] bytes. *)
Theorem createIcoFromPng_size (σ : gmap nat (list byte)) (pngBuffer : nat)
    (png : list byte) (width height : Z) :
  σ !! pngBuffer = Some png →
  ∃ bytes, produced (createIcoFromPng pngBuffer width height σ) = Some bytes
           ∧ length bytes = (22 + length png)%nat.
Proof.
  intros Hpng. rewrite (createIcoFromPng_produced _ _ _ width height Hpng).
  eexists. split; [reflexivity|].
  unfold ico_image. by rewrite length_app, length_ico_prefix.
Qed.

Lemma createIcoFromPng_size_witness :
  demo_heap !! 0%nat = Some demo_png
  ∧ ∃ bytes, produced (createIcoFromPng 0%nat 32 32 demo_heap) = Some bytes
             ∧ length bytes = (22 + length demo_png)%nat.
Proof.
  split; [reflexivity|].
  apply (createIcoFromPng_size demo_heap 0%nat demo_png 32 32). reflexivity.
Defined.

(** C2. Whatever the inputs, the first six bytes produced are
    [0, 0, 1, 0, 1, 0]: reserved 0, image type 1 and image count 1, each a
    little-endian 16-bit field. *)
Theorem createIcoFromPng_header (σ : gmap nat (list byte)) (pngBuffer : nat)
    (png : list byte) (width height : Z) :
  σ !! pngBuffer = Some png →
  ∃ bytes, produced (createIcoFromPng pngBuffer width height σ) = Some bytes
           ∧ take 6 bytes = [Byte.x00; Byte.x00; Byte.x01; Byte.x00; Byte.x01; Byte.x00]
           ∧ field_le bytes 0 2 = 0 ∧ field_le bytes 2 2 = 1 ∧ field_le bytes 4 2 = 1.
Proof.
  intros Hpng. run_encoder Hpng png width height.
  eexists. split; [reflexivity|]. rewrite Hlayout. repeat split; reflexivity.
Qed.

Lemma createIcoFromPng_header_witness :
  demo_heap !! 0%nat = Some demo_png
  ∧ ∃ bytes, produced (createIcoFromPng 0%nat 48 16 demo_heap) = Some bytes
             ∧ take 6 bytes = [Byte.x00; Byte.x00; Byte.x01; Byte.x00; Byte.x01; Byte.x00]
             ∧ field_le bytes 0 2 = 0 ∧ field_le bytes 2 2 = 1 ∧ field_le bytes 4 2 = 1.
Proof.
  split; [reflexivity|].
  apply (createIcoFromPng_header demo_heap 0%nat demo_png 48 16). reflexivity.
Defined.

(** C3. For every live input buffer, the empty one included, the bytes
    produced from offset 22 on are the input bytes, unchanged: offset
    [22 + i] holds byte [i] of the input. *)
Theorem createIcoFromPng_payload (σ : gmap nat (list byte)) (pngBuffer : nat)
    (png : list byte) (width height : Z) :
  σ !! pngBuffer = Some png →
  ∃ bytes, produced (createIcoFromPng pngBuffer width height σ) = Some bytes
           ∧ drop 22 bytes = png
           ∧ ∀ i : nat, (i < length png)%nat → bytes !! (22 + i)%nat = png !! i.
Proof.
  intros Hpng. run_encoder Hpng png width height.
  eexists. split; [reflexivity|]. rewrite Hlayout. split; [reflexivity|].
  intros i _. reflexivity.
Qed.

Lemma createIcoFromPng_payload_witness :
  demo_heap !! 0%nat = Some demo_png
  ∧ (∃ bytes, produced (createIcoFromPng 0%nat 16 16 demo_heap) = Some bytes
              ∧ drop 22 bytes = demo_png
              ∧ ∀ i : nat, (i < length demo_png)%nat →
                           bytes !! (22 + i)%nat = demo_png !! i)
  ∧ (<[7%nat := []]> ∅ : gmap nat (list byte)) !! 7%nat = Some []
  ∧ ∃ bytes, produced (createIcoFromPng 7%nat 16 16 (<[7%nat := []]> ∅)) = Some bytes
             ∧ drop 22 bytes = []
             ∧ ∀ i : nat, (i < length (@nil byte))%nat →
                          bytes !! (22 + i)%nat = @nil byte !! i.
Proof.
  split; [reflexivity|]. split.
  - apply (createIcoFromPng_payload demo_heap 0%nat demo_png 16 16). reflexivity.
  - split; [reflexivity|].
    apply (createIcoFromPng_payload (<[7%nat := []]> ∅) 7%nat [] 16 16). reflexivity.
Defined.

Lemma ico_image_size_field (png : list byte) (w h : Z) :
  field_le (ico_image png w h) 14 4 = Z.of_nat (length png) mod 2 ^ 32.
Proof.
  destruct (ico_image_layout png w h) as (n0 & n1 & n2 & n3 & Hsize & ->).
  unfold field_le. cbn [drop take app]. rewrite <- Hsize.
  apply (RawBytesToNumeric_NumericToRawBytes 4).
Qed.

Lemma length_big_png : Z.of_nat (length big_png) = 2 ^ 32.
Proof.
  unfold big_png. rewrite length_replicate. apply Z2Nat.id. by apply Z.pow_nonneg.
Qed.

(** A 32-bit field cannot hold a length of [2 ^ 32]: on a payload of 4 GiB
    the call returns normally and the size field reads 0. *)
Lemma createIcoFromPng_size_field_wraps :
  big_heap !! 0%nat = Some big_png
  ∧ ∃ bytes, produced (createIcoFromPng 0%nat 32 32 big_heap) = Some bytes
             ∧ Z.of_nat (length big_png) = 4294967296
             ∧ field_le bytes 14 4 = 0
             ∧ field_le bytes 14 4 ≠ Z.of_nat (length big_png).
Proof.
  assert (Hlive : big_heap !! 0%nat = Some big_png) by apply lookup_singleton_eq.
  split; [exact Hlive|].
  rewrite (createIcoFromPng_produced _ _ _ 32 32 Hlive).
  eexists. split; [reflexivity|].
  rewrite ico_image_size_field, length_big_png.
  rewrite Z.mod_same by done.
  split; [reflexivity|]. split; [reflexivity|]. discriminate.
Qed.

(** C4. The 4-byte little-endian field at offset 14 holds the length of
    the input modulo [2 ^ 32], which is the length itself for every input
    shorter than 4 GiB; the 4-byte little-endian field at offset 18 holds
    22 for every input. *)
Theorem createIcoFromPng_size_offset_fields (σ : gmap nat (list byte))
    (pngBuffer : nat) (png : list byte) (width height : Z) :
  σ !! pngBuffer = Some png →
  ∃ bytes, produced (createIcoFromPng pngBuffer width height σ) = Some bytes
           ∧ field_le bytes 14 4 = Z.of_nat (length png) mod 2 ^ 32
           ∧ (Z.of_nat (length png) < 2 ^ 32 → field_le bytes 14 4 = Z.of_nat (length png))
           ∧ field_le bytes 18 4 = 22.
Proof.
  intros Hpng. rewrite (createIcoFromPng_produced _ _ _ width height Hpng).
  eexists. split; [reflexivity|]. rewrite ico_image_size_field.
  split; [reflexivity|]. split.
  - intros Hlt. apply Z.mod_small. lia.
  - destruct (ico_image_layout png width height) as (n0 & n1 & n2 & n3 & _ & ->).
    reflexivity.
Qed.

Lemma createIcoFromPng_size_offset_fields_witness :
  demo_heap !! 0%nat = Some demo_png
  ∧ ∃ bytes, produced (createIcoFromPng 0%nat 32 32 demo_heap) = Some bytes
             ∧ field_le bytes 14 4 = Z.of_nat (length demo_png) mod 2 ^ 32
             ∧ (Z.of_nat (length demo_png) < 2 ^ 32 → field_le bytes 14 4 = Z.of_nat (length demo_png))
             ∧ field_le bytes 18 4 = 22.
Proof.
  split; [reflexivity|].
  apply (createIcoFromPng_size_offset_fields demo_heap 0%nat demo_png 32 32). reflexivity.
Defined.

(** C5. The width byte at offset 6 is [width] for [1 <= width <= 255] and
    0 for [width >= 256], and the height byte at offset 7 follows [height]
    the same way; so 256 x 256 gives 0 and 0, 255 x 255 gives 255 and 255,
    and 1 x 1 gives 1 and 1. *)
Theorem createIcoFromPng_dimensions (σ : gmap nat (list byte)) (pngBuffer : nat)
    (png : list byte) :
  σ !! pngBuffer = Some png →
  (∀ width height : Z,
     ∃ bytes bw bh,
       produced (createIcoFromPng pngBuffer width height σ) = Some bytes
       ∧ directory_size bytes = Some (bw, bh)
       ∧ (1 <= width <= 255 → bw = width) ∧ (256 <= width → bw = 0)
       ∧ (1 <= height <= 255 → bh = height) ∧ (256 <= height → bh = 0))
  ∧ produced (createIcoFromPng pngBuffer 256 256 σ) ≫= directory_size = Some (0, 0)
  ∧ produced (createIcoFromPng pngBuffer 255 255 σ) ≫= directory_size = Some (255, 255)
  ∧ produced (createIcoFromPng pngBuffer 1 1 σ) ≫= directory_size = Some (1, 1).
Proof.
  intros Hpng. split; [|repeat split].
  - intros width height. run_encoder Hpng png width height.
    do 3 eexists. split; [reflexivity|]. rewrite Hlayout.
    split; [reflexivity|]. repeat split; intros Hd.
    + rewrite dimension_byte_small by lia. apply Z.mod_small. lia.
    + by apply dimension_byte_large.
    + rewrite dimension_byte_small by lia. apply Z.mod_small. lia.
    + by apply dimension_byte_large.
  - run_encoder Hpng png 256 256. by rewrite Hlayout.
  - run_encoder Hpng png 255 255. by rewrite Hlayout.
  - run_encoder Hpng png 1 1. by rewrite Hlayout.
Qed.

Lemma createIcoFromPng_dimensions_witness :
  demo_heap !! 0%nat = Some demo_png
  ∧ produced (createIcoFromPng 0%nat 256 256 demo_heap) ≫= directory_size = Some (0, 0)
  ∧ produced (createIcoFromPng 0%nat 255 255 demo_heap) ≫= directory_size = Some (255, 255)
  ∧ produced (createIcoFromPng 0%nat 1 1 demo_heap) ≫= directory_size = Some (1, 1).
Proof.
  split; [reflexivity|].
  apply (createIcoFromPng_dimensions demo_heap 0%nat demo_png). reflexivity.
Defined.

(** C6. Whatever the inputs, the byte at offset 8 (palette colour count)
    and the byte at offset 9 (reserved) are 0, the little-endian 16-bit
    field at offset 10 (colour planes) is 1 and the little-endian 16-bit
    field at offset 12 (bits per pixel) is 32. *)
Theorem createIcoFromPng_entry_constants (σ : gmap nat (list byte))
    (pngBuffer : nat) (png : list byte) (width height : Z) :
  σ !! pngBuffer = Some png →
  ∃ bytes, produced (createIcoFromPng pngBuffer width height σ) = Some bytes
           ∧ bytes !! 8%nat = Some Byte.x00 ∧ bytes !! 9%nat = Some Byte.x00
           ∧ field_le bytes 10 2 = 1 ∧ field_le bytes 12 2 = 32.
Proof.
  intros Hpng. run_encoder Hpng png width height.
  eexists. split; [reflexivity|]. rewrite Hlayout. repeat split; reflexivity.
Qed.

Lemma createIcoFromPng_entry_constants_witness :
  demo_heap !! 0%nat = Some demo_png
  ∧ ∃ bytes, produced (createIcoFromPng 0%nat 300 (-4) demo_heap) = Some bytes
             ∧ bytes !! 8%nat = Some Byte.x00 ∧ bytes !! 9%nat = Some Byte.x00
             ∧ field_le bytes 10 2 = 1 ∧ field_le bytes 12 2 = 32.
Proof.
  split; [reflexivity|].
  apply (createIcoFromPng_entry_constants demo_heap 0%nat demo_png 300 (-4)). reflexivity.
Defined.

(** The call does throw on an [ArrayBuffer] that is not live: a detached
    buffer reports a length of 0, the header is written into a buffer of
    22 bytes, and [new Uint8Array(pngBuffer)] then raises a [TypeError].
    Here the store holds one buffer and [pngBuffer] is another identity,
    bound to nothing. *)
Lemma createIcoFromPng_detached_throws :
  demo_heap !! 5%nat = None
  ∧ createIcoFromPng 5%nat 32 32 demo_heap = Throw TypeError
  ∧ produced (createIcoFromPng 5%nat 32 32 demo_heap) = None.
Proof. repeat split; vm_compute; reflexivity. Qed.

(** C7. On a live buffer, and with the output buffer allocated, the call
    does not throw, whatever the bytes of the buffer (none, or bytes that
    are no PNG) and whatever the integers [width] and [height]: it returns
    a blob of [22 + length png] bytes.  It does not look into the payload:
    two payloads of one length get the same 22 leading bytes, and each is
    carried unchanged behind them. *)
Theorem createIcoFromPng_total (σ σ' : gmap nat (list byte))
    (pngBuffer pngBuffer' : nat) (png png' : list byte) (width height : Z) :
  σ !! pngBuffer = Some png →
  σ' !! pngBuffer' = Some png' →
  length png = length png' →
  ∃ blob blob' τ τ',
    createIcoFromPng pngBuffer width height σ = Normal blob τ
    ∧ createIcoFromPng pngBuffer' width height σ' = Normal blob' τ'
    ∧ length (blob_bytes blob) = (22 + length png)%nat
    ∧ take 22 (blob_bytes blob) = take 22 (blob_bytes blob')
    ∧ drop 22 (blob_bytes blob) = png
    ∧ drop 22 (blob_bytes blob') = png'.
Proof.
  intros Hpng Hpng' Hlen.
  rewrite (createIcoFromPng_run _ _ _ width height Hpng).
  rewrite (createIcoFromPng_run _ _ _ width height Hpng').
  do 4 eexists. do 2 (split; [reflexivity|]).
  cbn [blob_bytes]. unfold ico_image. rewrite <- Hlen.
  pose proof (length_ico_prefix (Z.of_nat (length png)) width height) as Hpre.
  rewrite length_app, Hpre.
  rewrite !take_app_length' by done. rewrite !drop_app_length' by done.
  done.
Qed.

Lemma createIcoFromPng_total_witness :
  demo_heap !! 0%nat = Some demo_png
  ∧ (<[3%nat := reverse demo_png]> demo_heap) !! 3%nat = Some (reverse demo_png)
  ∧ length demo_png = length (reverse demo_png)
  ∧ ∃ blob blob' τ τ',
      createIcoFromPng 0%nat 32 32 demo_heap = Normal blob τ
      ∧ createIcoFromPng 3%nat 32 32 (<[3%nat := reverse demo_png]> demo_heap)
        = Normal blob' τ'
      ∧ length (blob_bytes blob) = (22 + length demo_png)%nat
      ∧ take 22 (blob_bytes blob) = take 22 (blob_bytes blob')
      ∧ drop 22 (blob_bytes blob) = demo_png
      ∧ drop 22 (blob_bytes blob') = reverse demo_png.
Proof.
  split; [reflexivity|]. split; [reflexivity|]. split; [reflexivity|].
  apply (createIcoFromPng_total demo_heap (<[3%nat := reverse demo_png]> demo_heap)
           0%nat 3%nat demo_png (reverse demo_png) 32 32); reflexivity.
Defined.

(** C8. Two calls on buffers that hold the same bytes, with the same
    [width] and [height], return equal blobs, whatever else the two stores
    hold and wherever the buffers live in them. *)
Theorem createIcoFromPng_deterministic (σ σ' : gmap nat (list byte))
    (pngBuffer pngBuffer' : nat) (png : list byte) (width height : Z) :
  σ !! pngBuffer = Some png →
  σ' !! pngBuffer' = Some png →
  ∃ blob τ τ',
    createIcoFromPng pngBuffer width height σ = Normal blob τ
    ∧ createIcoFromPng pngBuffer' width height σ' = Normal blob τ'.
Proof.
  intros Hpng Hpng'.
  rewrite (createIcoFromPng_run _ _ _ width height Hpng).
  rewrite (createIcoFromPng_run _ _ _ width height Hpng').
  do 3 eexists. split; reflexivity.
Qed.

Lemma createIcoFromPng_deterministic_witness :
  demo_heap !! 0%nat = Some demo_png
  ∧ (<[5%nat := demo_png]> (<[0%nat := []]> demo_heap)) !! 5%nat = Some demo_png
  ∧ ∃ blob τ τ',
      createIcoFromPng 0%nat 64 64 demo_heap = Normal blob τ
      ∧ createIcoFromPng 5%nat 64 64 (<[5%nat := demo_png]> (<[0%nat := []]> demo_heap))
        = Normal blob τ'.
Proof.
  split; [reflexivity|]. split; [reflexivity|].
  apply (createIcoFromPng_deterministic demo_heap
           (<[5%nat := demo_png]> (<[0%nat := []]> demo_heap)) 0%nat 5%nat demo_png 64 64);
    reflexivity.
Defined.

(** C9. The call leaves every buffer that was live before it as it was,
    the input buffer among them: the store after the call is the store
    before it extended with one buffer, which was not bound before and
    which holds the bytes of the returned blob. *)
Theorem createIcoFromPng_frame (σ : gmap nat (list byte)) (pngBuffer : nat)
    (png : list byte) (width height : Z) :
  σ !! pngBuffer = Some png →
  ∃ blob τ buffer,
    createIcoFromPng pngBuffer width height σ = Normal blob τ
    ∧ σ !! buffer = None
    ∧ τ = <[buffer := blob_bytes blob]> σ
    ∧ τ !! pngBuffer = Some png
    ∧ ∀ (other : nat) (data : list byte), σ !! other = Some data → τ !! other = Some data.
Proof.
  intros Hpng. rewrite (createIcoFromPng_run _ _ _ width height Hpng).
  pose proof (fresh_unbound σ) as Hfresh.
  do 3 eexists. split; [reflexivity|]. split; [exact Hfresh|].
  split; [reflexivity|].
  assert (Hkeep : ∀ (other : nat) (data : list byte),
             σ !! other = Some data →
             <[fresh (dom σ) := ico_image png width height]> σ !! other = Some data).
  { intros other data Hother. rewrite lookup_insert_ne; [done|congruence]. }
  split; [by apply Hkeep|exact Hkeep].
Qed.

Lemma createIcoFromPng_frame_witness :
  demo_heap !! 0%nat = Some demo_png
  ∧ ∃ blob τ buffer,
      createIcoFromPng 0%nat 32 32 demo_heap = Normal blob τ
      ∧ demo_heap !! buffer = None
      ∧ τ = <[buffer := blob_bytes blob]> demo_heap
      ∧ τ !! 0%nat = Some demo_png
      ∧ ∀ (other : nat) (data : list byte),
          demo_heap !! other = Some data → τ !! other = Some data.
Proof.
  split; [reflexivity|].
  apply (createIcoFromPng_frame demo_heap 0%nat demo_png 32 32). reflexivity.
Defined.

(** C10. For every integer [width] below 256, zero and the negative ones
    included, the width byte at offset 6 is [width mod 256]; for every
    integer [height] below 256 the height byte at offset 7 is
    [height mod 256].  Nothing is rejected. *)
Theorem createIcoFromPng_dimensions_wrap (σ : gmap nat (list byte))
    (pngBuffer : nat) (png : list byte) (width height : Z) :
  σ !! pngBuffer = Some png →
  ∃ bytes bw bh,
    produced (createIcoFromPng pngBuffer width height σ) = Some bytes
    ∧ directory_size bytes = Some (bw, bh)
    ∧ (width < 256 → bw = width mod 256)
    ∧ (height < 256 → bh = height mod 256).
Proof.
  intros Hpng. run_encoder Hpng png width height.
  do 3 eexists. split; [reflexivity|]. rewrite Hlayout.
  split; [reflexivity|]. split; intros Hd; by apply dimension_byte_small.
Qed.

Lemma createIcoFromPng_dimensions_wrap_witness :
  demo_heap !! 0%nat = Some demo_png
  ∧ ∃ bytes bw bh,
      produced (createIcoFromPng 0%nat (-1) 0 demo_heap) = Some bytes
      ∧ directory_size bytes = Some (bw, bh)
      ∧ (-1 < 256 → bw = (-1) mod 256)
      ∧ (0 < 256 → bh = 0 mod 256).
Proof.
  split; [reflexivity|].
  apply (createIcoFromPng_dimensions_wrap demo_heap 0%nat demo_png (-1) 0). reflexivity.
Defined.


(** ** More about the encoder *)

Lemma ico_image_offset_field (png : list byte) (w h : Z) :
  field_le (ico_image png w h) 18 4 = 22.
Proof.
  destruct (ico_image_layout png w h) as (n0 & n1 & n2 & n3 & _ & ->). reflexivity.
Qed.

Lemma length_ico_image (png : list byte) (w h : Z) :
  length (ico_image png w h) = (22 + length png)%nat.
Proof. unfold ico_image. by rewrite length_app, length_ico_prefix. Qed.

Lemma drop_22_ico_image (png : list byte) (w h : Z) : drop 22 (ico_image png w h) = png.
Proof.
  unfold ico_image.
  apply drop_app_length'. symmetry. apply length_ico_prefix.
Qed.

(** X1. The blob the encoder returns is typed as an icon, whatever the
    inputs. *)
Theorem createIcoFromPng_blob_type (σ : gmap nat (list byte)) (pngBuffer : nat)
    (png : list byte) (width height : Z) :
  σ !! pngBuffer = Some png →
  ∃ blob τ, createIcoFromPng pngBuffer width height σ = Normal blob τ
            ∧ blob_type blob = "image/x-icon".
Proof.
  intros Hpng. rewrite (createIcoFromPng_run _ _ _ width height Hpng).
  by do 2 eexists.
Qed.

Lemma createIcoFromPng_blob_type_witness :
  demo_heap !! 0%nat = Some demo_png
  ∧ ∃ blob τ, createIcoFromPng 0%nat 16 16 demo_heap = Normal blob τ
              ∧ blob_type blob = "image/x-icon".
Proof.
  split; [reflexivity|].
  apply (createIcoFromPng_blob_type demo_heap 0%nat demo_png 16 16). reflexivity.
Defined.

(** X2. The directory entry points at the payload: for a payload shorter than
    4 GiB, the bytes found at the offset the entry gives, over the size the
    entry gives, are the payload, and offset plus size is the length of
    the whole file. *)
Theorem createIcoFromPng_entry_locates_payload (σ : gmap nat (list byte))
    (pngBuffer : nat) (png : list byte) (width height : Z) :
  σ !! pngBuffer = Some png →
  Z.of_nat (length png) < 2 ^ 32 →
  ∃ bytes,
    produced (createIcoFromPng pngBuffer width height σ) = Some bytes
    ∧ take (Z.to_nat (field_le bytes 14 4)) (drop (Z.to_nat (field_le bytes 18 4)) bytes)
      = png
    ∧ field_le bytes 18 4 + field_le bytes 14 4 = Z.of_nat (length bytes).
Proof.
  intros Hpng Hlen. rewrite (createIcoFromPng_produced _ _ _ width height Hpng).
  eexists. split; [reflexivity|].
  rewrite ico_image_size_field, ico_image_offset_field, length_ico_image.
  rewrite Z.mod_small by lia.
  change (Z.to_nat 22) with 22%nat. rewrite drop_22_ico_image, Nat2Z.id.
  split; [by rewrite firstn_all|lia].
Qed.

Lemma createIcoFromPng_entry_locates_payload_witness :
  demo_heap !! 0%nat = Some demo_png
  ∧ Z.of_nat (length demo_png) < 2 ^ 32
  ∧ ∃ bytes,
      produced (createIcoFromPng 0%nat 32 32 demo_heap) = Some bytes
      ∧ take (Z.to_nat (field_le bytes 14 4)) (drop (Z.to_nat (field_le bytes 18 4)) bytes)
        = demo_png
      ∧ field_le bytes 18 4 + field_le bytes 14 4 = Z.of_nat (length bytes).
Proof.
  split; [reflexivity|]. split; [reflexivity|].
  apply (createIcoFromPng_entry_locates_payload demo_heap 0%nat demo_png 32 32);
    reflexivity.
Defined.

Lemma directory_dimension_byte (d : Z) :
  directory_dimension (byte_to_Z (dimension_byte d)) = d ↔ 1 <= d <= 256.
Proof.
  unfold directory_dimension.
  destruct (Z.le_gt_cases 256 d) as [Hd|Hd].
  - rewrite dimension_byte_large by done. cbn. lia.
  - rewrite dimension_byte_small by lia.
    pose proof (Z.mod_pos_bound d 256 ltac:(lia)) as Hr.
    destruct (Z.eqb_spec (d mod 256) 0) as [E|E].
    + split; [lia|]. intros Hd'. rewrite Z.mod_small in E by lia. lia.
    + split.
      * intros Hm. rewrite Hm in Hr, E. lia.
      * intros Hd'. apply Z.mod_small. lia.
Qed.

(** X3. Read back under the rule that 0 means 256, the width byte gives the
    width that was passed exactly when the width lies in 1..256, and the
    height byte likewise. *)
Theorem createIcoFromPng_dimension_round_trip (σ : gmap nat (list byte))
    (pngBuffer : nat) (png : list byte) (width height : Z) :
  σ !! pngBuffer = Some png →
  ∃ bytes bw bh,
    produced (createIcoFromPng pngBuffer width height σ) = Some bytes
    ∧ directory_size bytes = Some (bw, bh)
    ∧ (directory_dimension bw = width ↔ 1 <= width <= 256)
    ∧ (directory_dimension bh = height ↔ 1 <= height <= 256).
Proof.
  intros Hpng. run_encoder Hpng png width height.
  do 3 eexists. split; [reflexivity|]. rewrite Hlayout.
  split; [reflexivity|]. split; apply directory_dimension_byte.
Qed.

Lemma createIcoFromPng_dimension_round_trip_witness :
  demo_heap !! 0%nat = Some demo_png
  ∧ ∃ bytes bw bh,
      produced (createIcoFromPng 0%nat 256 300 demo_heap) = Some bytes
      ∧ directory_size bytes = Some (bw, bh)
      ∧ (directory_dimension bw = 256 ↔ 1 <= 256 <= 256)
      ∧ (directory_dimension bh = 300 ↔ 1 <= 300 <= 256).
Proof.
  split; [reflexivity|].
  apply (createIcoFromPng_dimension_round_trip demo_heap 0%nat demo_png 256 300).
  reflexivity.
Defined.

(** X4. No two payloads give the same file: when two calls, on any stores and
    with any dimensions, produce the same bytes, their payloads were the
    same. *)
Theorem createIcoFromPng_payload_injective (σ σ' : gmap nat (list byte))
    (pngBuffer pngBuffer' : nat) (png png' : list byte) (width height width' height' : Z) :
  σ !! pngBuffer = Some png →
  σ' !! pngBuffer' = Some png' →
  produced (createIcoFromPng pngBuffer width height σ)
  = produced (createIcoFromPng pngBuffer' width' height' σ') →
  png = png'.
Proof.
  intros Hpng Hpng'.
  rewrite (createIcoFromPng_produced _ _ _ width height Hpng).
  rewrite (createIcoFromPng_produced _ _ _ width' height' Hpng').
  intros Heq.
  assert (Himg : ico_image png width height = ico_image png' width' height')
    by congruence.
  rewrite <- (drop_22_ico_image png width height), Himg. apply drop_22_ico_image.
Qed.

Lemma createIcoFromPng_payload_injective_witness :
  demo_heap !! 0%nat = Some demo_png
  ∧ (<[4%nat := demo_png]> demo_heap) !! 4%nat = Some demo_png
  ∧ produced (createIcoFromPng 0%nat 32 32 demo_heap)
    = produced (createIcoFromPng 4%nat 32 32 (<[4%nat := demo_png]> demo_heap))
  ∧ demo_png = demo_png.
Proof.
  split; [reflexivity|]. split; [reflexivity|]. split; [reflexivity|].
  apply (createIcoFromPng_payload_injective demo_heap (<[4%nat := demo_png]> demo_heap)
           0%nat 4%nat demo_png demo_png 32 32 32 32); reflexivity.
Defined.

(** X5. Two calls in a row on one buffer: the first leaves its output in a
    buffer that was not bound before, the second returns the same blob as
    the first, in a buffer of its own, and leaves the buffer of the first
    call and the input as they were. *)
Theorem createIcoFromPng_twice (σ : gmap nat (list byte)) (pngBuffer : nat)
    (png : list byte) (width height : Z) :
  σ !! pngBuffer = Some png →
  ∃ blob τ τ' buffer buffer',
    createIcoFromPng pngBuffer width height σ = Normal blob τ
    ∧ createIcoFromPng pngBuffer width height τ = Normal blob τ'
    ∧ buffer ≠ buffer'
    ∧ σ !! buffer = None ∧ τ !! buffer = Some (blob_bytes blob)
    ∧ τ !! buffer' = None
    ∧ τ' !! buffer = Some (blob_bytes blob)
    ∧ τ' !! buffer' = Some (blob_bytes blob)
    ∧ τ' !! pngBuffer = Some png.
Proof.
  intros Hpng.
  pose proof (createIcoFromPng_run _ _ _ width height Hpng) as Hrun.
  pose proof (fresh_unbound σ) as Hfresh.
  set (b := fresh (dom σ)) in *. set (out := ico_image png width height) in *.
  assert (Hne : b ≠ pngBuffer) by congruence.
  assert (Hpng' : <[b := out]> σ !! pngBuffer = Some png) by by rewrite lookup_insert_ne.
  pose proof (createIcoFromPng_run _ _ _ width height Hpng') as Hrun'. fold out in Hrun'.
  pose proof (fresh_unbound (<[b := out]> σ)) as Hfresh'.
  set (b' := fresh (dom (<[b := out]> σ))) in *.
  assert (Hbb : b ≠ b').
  { intros E. rewrite <- E, lookup_insert_eq in Hfresh'. done. }
  assert (Hne' : b' ≠ pngBuffer) by congruence.
  exists (mkBlob out "image/x-icon"), (<[b := out]> σ), (<[b' := out]> (<[b := out]> σ)), b, b'.
  cbn [blob_bytes].
  split; [exact Hrun|]. split; [exact Hrun'|]. split; [exact Hbb|].
  split; [exact Hfresh|]. split; [apply lookup_insert_eq|].
  split; [exact Hfresh'|].
  split; [by rewrite lookup_insert_ne, lookup_insert_eq|].
  split; [apply lookup_insert_eq|by rewrite lookup_insert_ne].
Qed.

Lemma createIcoFromPng_twice_witness :
  demo_heap !! 0%nat = Some demo_png
  ∧ ∃ blob τ τ' buffer buffer',
      createIcoFromPng 0%nat 32 32 demo_heap = Normal blob τ
      ∧ createIcoFromPng 0%nat 32 32 τ = Normal blob τ'
      ∧ buffer ≠ buffer'
      ∧ demo_heap !! buffer = None ∧ τ !! buffer = Some (blob_bytes blob)
      ∧ τ !! buffer' = None
      ∧ τ' !! buffer = Some (blob_bytes blob)
      ∧ τ' !! buffer' = Some (blob_bytes blob)
      ∧ τ' !! 0%nat = Some demo_png.
Proof.
  split; [reflexivity|].
  apply (createIcoFromPng_twice demo_heap 0%nat demo_png 32 32). reflexivity.
Defined.

(** ** The size the page passes to the encoder *)

Lemma commonIcoSizes_range : Forall (λ s, 16 <= s <= 256) commonIcoSizes.
Proof. unfold commonIcoSizes. repeat constructor; lia. Qed.

Lemma clampDimension_ge_1 (parsed : option Z) : 1 <= clampDimension parsed.
Proof. unfold clampDimension. lia. Qed.

(** X6. A change of a size input: the side becomes the integer that
    [parseInt] read when that is 1 or more, and 1 when [parseInt] gave
    [NaN], 0 or a negative number; the other side and the rest of the
    state stay. *)
Theorem size_inputs_clamp (parsed : option Z) (c : ImageProcessor) :
  let clamped := match parsed with
                 | Some n => if 1 <=? n then n else 1
                 | None => 1
                 end in
  onWidthChange parsed c
  = mkImageProcessor (processState c) (originalFile c) (processedImageUrl c)
      (mkSize clamped (height (size c))) (error c)
  ∧ onHeightChange parsed c
    = mkImageProcessor (processState c) (originalFile c) (processedImageUrl c)
        (mkSize (width (size c)) clamped) (error c)
  ∧ 1 <= clamped.
Proof.
  assert (E : clampDimension parsed
              = match parsed with
                | Some n => if 1 <=? n then n else 1
                | None => 1
                end).
  { unfold clampDimension, number_or. destruct parsed as [n|]; [|reflexivity].
    destruct (Z.eqb_spec n 0) as [->|Hn]; [reflexivity|].
    destruct (Z.leb_spec 1 n); lia. }
  cbn zeta. rewrite <- E. unfold onWidthChange, onHeightChange.
  repeat split. apply clampDimension_ge_1.
Qed.

(** ** What every sequence of events keeps *)

Lemma run_snoc (events : list Event) (e : Event) :
  run (events ++ [e]) = handle (run events) e.
Proof. unfold run. by rewrite foldl_snoc. Qed.

(** A property of the first state that every handler keeps holds after
    every sequence of events. *)
Lemma run_invariant (I : ImageProcessor → Prop) :
  I initialState →
  (∀ c e, I c → I (handle c e)) →
  ∀ events, I (run events).
Proof.
  intros Hinit Hstep events. induction events as [|e events IH] using rev_ind.
  - exact Hinit.
  - rewrite run_snoc. by apply Hstep.
Qed.

(** X7. Whatever happens on the page, both sides of the size stay at 1 or
    more. *)
Theorem size_at_least_1 (events : list Event) :
  1 <= width (size (run events)) ∧ 1 <= height (size (run events)).
Proof.
  apply (run_invariant (λ c, 1 <= width (size c) ∧ 1 <= height (size c))).
  - cbn. lia.
  - intros c e [Hw Hh].
    destruct e as [files|files|url| | |parsed|parsed|i]; cbn [handle].
    + destruct files as [|file files]; cbn [handleFileChange]; [done|].
      unfold processFile. by destruct (negb _).
    + destruct files as [|file files]; cbn [handleDrop]; [done|].
      unfold processFile. by destruct (negb _).
    + done.
    + cbn. lia.
    + done.
    + cbn [onWidthChange size width height]. split; [apply clampDimension_ge_1|done].
    + cbn [onHeightChange size width height]. split; [done|apply clampDimension_ge_1].
    + unfold onPresetClick. destruct (commonIcoSizes !! i) as [s|] eqn:Hs; [|done].
      pose proof (Forall_lookup_1 _ _ _ _ commonIcoSizes_range Hs) as Hrange.
      cbn in Hrange |- *. lia.
Qed.

(** X8. In the state [Ready] there is an image URL: the page may show the
    image and [handleDownload] does not return early. *)
Theorem ready_has_url (events : list Event) :
  processState (run events) = Ready → is_Some (processedImageUrl (run events)).
Proof.
  apply (run_invariant (λ c, processState c = Ready → is_Some (processedImageUrl c))).
  - done.
  - intros c e IH.
    destruct e as [files|files|url| | |parsed|parsed|i]; cbn [handle].
    + destruct files as [|file files]; cbn [handleFileChange]; [done|].
      unfold processFile. by destruct (negb _).
    + destruct files as [|file files]; cbn [handleDrop]; [done|].
      unfold processFile. by destruct (negb _).
    + by eexists.
    + done.
    + done.
    + done.
    + done.
    + unfold onPresetClick. by destruct (commonIcoSizes !! i).
Qed.

Lemma ready_has_url_witness :
  processState (run [Drop [demo_file]; Timeout "blob:demo"; PresetClick 0]) = Ready
  ∧ is_Some (processedImageUrl (run [Drop [demo_file]; Timeout "blob:demo"; PresetClick 0])).
Proof.
  split; [reflexivity|].
  apply (ready_has_url [Drop [demo_file]; Timeout "blob:demo"; PresetClick 0]).
  reflexivity.
Defined.

(** X9. In the state [Error] there is a message to show. *)
Theorem error_has_message (events : list Event) :
  processState (run events) = Error → is_Some (error (run events)).
Proof.
  apply (run_invariant (λ c, processState c = Error → is_Some (error c))).
  - done.
  - intros c e IH.
    destruct e as [files|files|url| | |parsed|parsed|i]; cbn [handle].
    + destruct files as [|file files]; cbn [handleFileChange]; [done|].
      unfold processFile. destruct (negb _); [by eexists|done].
    + destruct files as [|file files]; cbn [handleDrop]; [done|].
      unfold processFile. destruct (negb _); [by eexists|done].
    + done.
    + done.
    + by eexists.
    + done.
    + done.
    + unfold onPresetClick. by destruct (commonIcoSizes !! i).
Qed.

Lemma error_has_message_witness :
  processState (run [FileChange [mkFile "notes.txt" "text/plain"]]) = Error
  ∧ is_Some (error (run [FileChange [mkFile "notes.txt" "text/plain"]])).
Proof.
  split; [reflexivity|].
  apply (error_has_message [FileChange [mkFile "notes.txt" "text/plain"]]).
  reflexivity.
Defined.

(** X10. The file the page keeps as the original always has a MIME type that
    starts with [image/]: a file of another type never replaces it. *)
Theorem original_file_is_image (events : list Event) (file : File) :
  originalFile (run events) = Some file →
  String.prefix "image/" (file_type file) = true.
Proof.
  revert file.
  apply (run_invariant (λ c, ∀ file, originalFile c = Some file →
                              String.prefix "image/" (file_type file) = true)).
  - done.
  - intros c e IH file.
    destruct e as [files|files|url| | |parsed|parsed|i]; cbn [handle].
    + destruct files as [|f files]; cbn [handleFileChange]; [by apply IH|].
      unfold processFile. destruct (String.prefix "image/" (file_type f)) eqn:Hf;
        cbn [negb originalFile]; [congruence|by apply IH].
    + destruct files as [|f files]; cbn [handleDrop]; [by apply IH|].
      unfold processFile. destruct (String.prefix "image/" (file_type f)) eqn:Hf;
        cbn [negb originalFile]; [congruence|by apply IH].
    + by apply IH.
    + done.
    + by apply IH.
    + by apply IH.
    + by apply IH.
    + unfold onPresetClick. destruct (commonIcoSizes !! i); by apply IH.
Qed.

Lemma original_file_is_image_witness :
  originalFile (run [FileChange [demo_file]; Drop [mkFile "notes.txt" "text/plain"]])
  = Some demo_file
  ∧ String.prefix "image/" (file_type demo_file) = true.
Proof.
  split; [reflexivity|].
  apply (original_file_is_image
           [FileChange [demo_file]; Drop [mkFile "notes.txt" "text/plain"]] demo_file).
  reflexivity.
Defined.

(** ** From the page to the file *)

Lemma directory_dimension_min (d : Z) :
  1 <= d → directory_dimension (byte_to_Z (dimension_byte d)) = Z.min d 256.
Proof.
  intros Hd. destruct (Z.le_gt_cases d 256) as [Hle|Hgt].
  - rewrite Z.min_l by done. apply directory_dimension_byte. lia.
  - rewrite Z.min_r by lia. rewrite dimension_byte_large by lia. reflexivity.
Qed.

(** X11. Whatever happened on the page before the download, the directory
    entry of the icon reads back, under the rule that 0 means 256, as the
    size of the state capped at 256 on each side: it is the size of the
    canvas exactly when neither side is above 256. *)
Theorem handleDownload_directory (events : list Event) (σ : gmap nat (list byte))
    (pngBuffer : nat) (png : list byte) :
  σ !! pngBuffer = Some png →
  ∃ bytes bw bh,
    produced (handleDownload_ico (run events) pngBuffer σ) = Some bytes
    ∧ directory_size bytes = Some (bw, bh)
    ∧ directory_dimension bw = Z.min (width (size (run events))) 256
    ∧ directory_dimension bh = Z.min (height (size (run events))) 256.
Proof.
  intros Hpng. unfold handleDownload_ico.
  destruct (size_at_least_1 events) as [Hw Hh].
  run_encoder Hpng png (width (size (run events))) (height (size (run events))).
  do 3 eexists. split; [reflexivity|]. rewrite Hlayout.
  split; [reflexivity|]. split; by apply directory_dimension_min.
Qed.

Lemma handleDownload_directory_witness :
  demo_heap !! 0%nat = Some demo_png
  ∧ ∃ bytes bw bh,
      produced (handleDownload_ico (run [WidthChange (Some 300); HeightChange None])
                  0%nat demo_heap) = Some bytes
      ∧ directory_size bytes = Some (bw, bh)
      ∧ directory_dimension bw
        = Z.min (width (size (run [WidthChange (Some 300); HeightChange None]))) 256
      ∧ directory_dimension bh
        = Z.min (height (size (run [WidthChange (Some 300); HeightChange None]))) 256.
Proof.
  split; [reflexivity|].
  apply (handleDownload_directory [WidthChange (Some 300); HeightChange None]
           demo_heap 0%nat demo_png).
  reflexivity.
Defined.

(** X12. Every preset button gives an icon whose directory entry reads back as
    the preset, 256 included. *)
Theorem preset_round_trip (i : nat) (s : Z) (c : ImageProcessor)
    (σ : gmap nat (list byte)) (pngBuffer : nat) (png : list byte) :
  commonIcoSizes !! i = Some s →
  σ !! pngBuffer = Some png →
  ∃ bytes bw bh,
    produced (handleDownload_ico (onPresetClick i c) pngBuffer σ) = Some bytes
    ∧ directory_size bytes = Some (bw, bh)
    ∧ directory_dimension bw = s ∧ directory_dimension bh = s.
Proof.
  intros Hs Hpng. unfold handleDownload_ico, onPresetClick. rewrite Hs.
  cbn [size width height].
  pose proof (Forall_lookup_1 _ _ _ _ commonIcoSizes_range Hs) as Hrange.
  cbn beta in Hrange.
  run_encoder Hpng png s s.
  do 3 eexists. split; [reflexivity|]. rewrite Hlayout.
  split; [reflexivity|]. split; apply directory_dimension_byte; lia.
Qed.

Lemma preset_round_trip_witness :
  commonIcoSizes !! 6%nat = Some 256
  ∧ demo_heap !! 0%nat = Some demo_png
  ∧ ∃ bytes bw bh,
      produced (handleDownload_ico (onPresetClick 6 initialState) 0%nat demo_heap)
      = Some bytes
      ∧ directory_size bytes = Some (bw, bh)
      ∧ directory_dimension bw = 256 ∧ directory_dimension bh = 256.
Proof.
  split; [reflexivity|]. split; [reflexivity|].
  apply (preset_round_trip 6 256 initialState demo_heap 0%nat demo_png); reflexivity.
Defined.

(** ** The name of the download *)

Section OriginalName.

Lemma split_dot_nonempty (s : string) : split_dot s ≠ [].
Proof.
  destruct s as [|c s]; cbn [split_dot]; [done|].
  destruct (Ascii.eqb c "."); [done|]. by destruct (split_dot s).
Qed.

Lemma split_dot_dot_free (s : string) : dot_free s = true → split_dot s = [s].
Proof.
  induction s as [|c s IH]; cbn [dot_free split_dot]; [done|].
  destruct (Ascii.eqb c "."); cbn [negb andb]; [done|].
  intros Hs. by rewrite IH.
Qed.

Lemma split_dot_app (s1 s2 : string) :
  split_dot (s1 +:+ String "." s2) = split_dot s1 ++ split_dot s2.
Proof.
  induction s1 as [|c s1 IH].
  - reflexivity.
  - change (String c s1 +:+ String "." s2) with (String c (s1 +:+ String "." s2)).
    cbn [split_dot]. destruct (Ascii.eqb c "."); rewrite IH; [done|].
    pose proof (split_dot_nonempty s1) as Hne.
    by destruct (split_dot s1).
Qed.

Lemma join_dot_split_dot (s : string) : join_dot (split_dot s) = s.
Proof.
  induction s as [|c s IH]; cbn [split_dot]; [done|].
  pose proof (split_dot_nonempty s) as Hne.
  destruct (Ascii.eqb_spec c ".") as [->|_].
  - destruct (split_dot s) as [|piece pieces]; [done|].
    change (join_dot (EmptyString :: piece :: pieces))
      with (String "." (join_dot (piece :: pieces))).
    by rewrite IH.
  - destruct (split_dot s) as [|piece pieces]; [done|].
    destruct pieces as [|piece' pieces].
    + cbn [join_dot] in *. by rewrite IH.
    + change (join_dot (String c piece :: piece' :: pieces))
        with (String c (join_dot (piece :: piece' :: pieces))).
      by rewrite IH.
Qed.

Lemma slice_0_minus1_snoc (pieces : list string) (last : string) :
  slice_0_minus1 (pieces ++ [last]) = pieces.
Proof.
  unfold slice_0_minus1. rewrite length_app. cbn [length].
  replace (length pieces + 1 - 1)%nat with (length pieces) by lia.
  by rewrite take_app_length.
Qed.

End OriginalName.

(** X13. A file name with a non-empty part in front of its last dot loses that
    dot and what follows it, and nothing else: earlier dots stay. *)
Theorem originalName_strips_extension (stem ext type : string) :
  dot_free ext = true →
  stem ≠ EmptyString →
  originalName (Some (mkFile (stem +:+ String "." ext) type)) = stem.
Proof.
  intros Hext Hstem. unfold originalName. cbn [file_name].
  rewrite split_dot_app, (split_dot_dot_free ext Hext), slice_0_minus1_snoc.
  rewrite join_dot_split_dot. by destruct stem.
Qed.

Lemma originalName_strips_extension_witness :
  dot_free "png" = true
  ∧ "logo.final" ≠ EmptyString
  ∧ originalName (Some (mkFile ("logo.final" +:+ String "." "png") "image/png"))
    = "logo.final".
Proof.
  split; [reflexivity|]. split; [discriminate|].
  apply (originalName_strips_extension "logo.final" "png" "image/png");
    [reflexivity|discriminate].
Defined.

(** X14. A file name without a dot, or with its only dot in front, is not kept:
    the download is named after [icon], as it is when there is no file. *)
Theorem originalName_falls_back (name type : string) :
  dot_free name = true →
  originalName (Some (mkFile name type)) = "icon"
  ∧ originalName (Some (mkFile (String "." name) type)) = "icon"
  ∧ originalName None = "icon".
Proof.
  intros Hname. unfold originalName. cbn [file_name].
  change (String "." name) with (EmptyString +:+ String "." name).
  rewrite split_dot_app, (split_dot_dot_free name Hname).
  done.
Qed.

Lemma originalName_falls_back_witness :
  dot_free "favicon" = true
  ∧ originalName (Some (mkFile "favicon" "image/png")) = "icon"
  ∧ originalName (Some (mkFile (String "." "favicon") "image/png")) = "icon"
  ∧ originalName None = "icon".
Proof.
  split; [reflexivity|].
  apply (originalName_falls_back "favicon" "image/png"). reflexivity.
Defined.
